(** * Black-Scholes pricing and heatmap grids (src/app.py)

    A shallow embedding of [black_scholes] and [main] of src/app.py, and the
    properties of the pricing engine and of the presentation layer that the
    specification states about them.

    Numbers.  Python floats are modelled as real numbers ([R]): arithmetic is
    exact, there is no rounding, infinity or NaN.  [np.log], [np.sqrt],
    [np.exp] are [ln], [sqrt], [exp]; [scipy.stats.norm.cdf] is [norm_cdf],
    the cumulative distribution function of the standard normal law, defined
    below as an integral of its density.  Every statement about a price value
    is made where the real-valued formula is the one the code evaluates
    (strike different from zero, argument of the logarithm positive).  The
    sign and the order of prices are proved for the real-valued formula
    ([spec_price]); the doubles that the program computes follow the formula
    up to rounding only, so these facts are not stated of the program's
    results, except where the values compared are far apart.

    Exceptions.  Two operations of [black_scholes] raise on Python floats:
    [S / K] when the strike is 0 ([truediv]) and [sigma ** 2] when the square
    overflows ([float_pow2]).  [black_scholes] has the first,
    [black_scholes_exn] has both. *)

From Stdlib Require Import Reals Lra Lia List String Bool.
Import ListNotations.
Open Scope R_scope.

(* ================================================================= *)
(** ** Integrals of continuous functions and derivative rules *)

(** The Riemann integrability of a continuous function on any interval, in
    either orientation. *)
Definition cont_integrable (f : R -> R) (C : continuity f) (a b : R) :
  Riemann_integrable f a b :=
  match Rle_dec a b with
  | left h => continuity_implies_RiemannInt h (fun x _ => C x)
  | right h =>
      RiemannInt_P1
        (continuity_implies_RiemannInt
           (Rlt_le _ _ (Rnot_le_lt _ _ h)) (fun x _ => C x))
  end.

(** [integral_from_0 f C x] is the integral of [f] from 0 to [x]. *)
Definition integral_from_0 (f : R -> R) (C : continuity f) (x : R) : R :=
  RiemannInt (cont_integrable f C 0 x).


(** Fundamental theorem of calculus, on the whole line. *)
Lemma integral_from_0_deriv f C x :
  derivable_pt_lim (integral_from_0 f C) x (f x).
Proof.
  set (a := - Rabs x - 1). set (b := Rabs x + 1).
  assert (Hx : a < x < b).
  { unfold a, b, Rabs. destruct (Rcase_abs x); lra. }
  assert (H0 : a < 0 < b).
  { unfold a, b. pose proof (Rabs_pos x). lra. }
  assert (h : a <= b) by lra.
  pose (C0 := fun (y : R) (_ : a <= y <= b) => C y).
  pose proof (RiemannInt_P28 h C0
                (conj (Rlt_le _ _ (proj1 Hx)) (Rlt_le _ _ (proj2 Hx)))) as HP.
  set (P := primitive h (FTC_P1 h C0)) in *.
  apply (derivable_pt_lim_locally_ext (fun y => P y - P 0) _ x a b);
    [exact Hx| |].
  - intros z Hz. unfold P, primitive, integral_from_0.
    destruct (Rle_dec a z) as [h1|h1]; [|lra].
    destruct (Rle_dec z b) as [h2|h2]; [|lra].
    destruct (Rle_dec a 0) as [h3|h3]; [|lra].
    destruct (Rle_dec 0 b) as [h4|h4]; [|lra].
    rewrite <- (RiemannInt_P26 (FTC_P1 h C0 h3 h4) (cont_integrable f C 0 z)
                  (FTC_P1 h C0 h1 h2)).
    ring.
  - replace (f x) with (f x - 0) by ring.
    apply (derivable_pt_lim_minus P (fun _ => P 0)); [exact HP|].
    apply derivable_pt_lim_const.
Qed.

Lemma dl_ext f x l l' :
  derivable_pt_lim f x l -> l = l' -> derivable_pt_lim f x l'.
Proof. intros H <-. exact H. Qed.

Section DerivativeRules.
Variables (f g : R -> R) (x a b : R).

Lemma dl_id : derivable_pt_lim (fun t => t) x 1.
Proof. exact (derivable_pt_lim_id x). Qed.

Lemma dl_const c : derivable_pt_lim (fun _ => c) x 0.
Proof. exact (derivable_pt_lim_const c x). Qed.

Lemma dl_plus :
  derivable_pt_lim f x a -> derivable_pt_lim g x b ->
  derivable_pt_lim (fun t => f t + g t) x (a + b).
Proof. exact (derivable_pt_lim_plus f g x a b). Qed.

Lemma dl_minus :
  derivable_pt_lim f x a -> derivable_pt_lim g x b ->
  derivable_pt_lim (fun t => f t - g t) x (a - b).
Proof. exact (derivable_pt_lim_minus f g x a b). Qed.

Lemma dl_opp :
  derivable_pt_lim f x a -> derivable_pt_lim (fun t => - f t) x (- a).
Proof. exact (derivable_pt_lim_opp f x a). Qed.

Lemma dl_mult :
  derivable_pt_lim f x a -> derivable_pt_lim g x b ->
  derivable_pt_lim (fun t => f t * g t) x (a * g x + f x * b).
Proof. exact (derivable_pt_lim_mult f g x a b). Qed.

Lemma dl_comp :
  derivable_pt_lim f x a -> derivable_pt_lim g (f x) b ->
  derivable_pt_lim (fun t => g (f t)) x (b * a).
Proof. exact (derivable_pt_lim_comp f g x a b). Qed.

Lemma dl_div_const c :
  derivable_pt_lim f x a -> derivable_pt_lim (fun t => f t / c) x (a / c).
Proof.
  intros H. unfold Rdiv.
  apply (dl_ext (fun t => f t * / c) x (a * / c + f x * 0)); [|ring].
  apply (derivable_pt_lim_mult f (fun _ => / c) x a 0);
    [exact H | apply derivable_pt_lim_const].
Qed.

End DerivativeRules.

(** [dl] computes the derivative of an expression built from the rules
    above; [dl_hook] is extended once [norm_cdf] is defined. *)
Ltac dl_hook := fail.

Ltac dl :=
  lazymatch goal with
  | |- derivable_pt_lim (fun t => t) _ _ => apply dl_id
  | |- derivable_pt_lim (fun _ => ?c) _ _ => apply dl_const
  | |- derivable_pt_lim (fun t => @?f t + @?g t) _ _ => apply (dl_plus f g); dl
  | |- derivable_pt_lim (fun t => @?f t - @?g t) _ _ => apply (dl_minus f g); dl
  | |- derivable_pt_lim (fun t => - @?f t) _ _ => apply (dl_opp f); dl
  | |- derivable_pt_lim (fun t => @?f t * @?g t) _ _ => apply (dl_mult f g); dl
  | |- derivable_pt_lim (fun t => @?f t / ?c) _ _ => apply (dl_div_const f); dl
  | |- derivable_pt_lim (fun t => exp (@?f t)) _ _ =>
      apply (dl_comp f exp); [dl | apply derivable_pt_lim_exp]
  | |- derivable_pt_lim (fun t => sin (@?f t)) _ _ =>
      apply (dl_comp f sin); [dl | apply derivable_pt_lim_sin]
  | |- derivable_pt_lim (fun t => cos (@?f t)) _ _ =>
      apply (dl_comp f cos); [dl | apply derivable_pt_lim_cos]
  | |- derivable_pt_lim (fun t => atan (@?f t)) _ _ =>
      apply (dl_comp f atan); [dl | apply derivable_pt_lim_atan]
  | |- derivable_pt_lim (fun t => (@?f t) ^ ?n) _ _ =>
      apply (dl_comp f (fun y => y ^ n)); [dl | apply derivable_pt_lim_pow]
  | |- derivable_pt_lim (fun t => integral_from_0 ?g ?C (@?f t)) _ _ =>
      apply (dl_comp f (integral_from_0 g C)); [dl | apply integral_from_0_deriv]
  | |- derivable_pt_lim (integral_from_0 ?g ?C) _ _ =>
      apply integral_from_0_deriv
  | _ => dl_hook
  end.

(* ================================================================= *)
(** ** The standard normal law: [scipy.stats.norm.cdf] *)

(** The unnormalised Gaussian density. *)
Definition gauss_kernel (t : R) : R := exp (- (t ^ 2 / 2)).

Lemma gauss_kernel_deriv x :
  derivable_pt_lim gauss_kernel x (- x * gauss_kernel x).
Proof.
  unfold gauss_kernel. eapply dl_ext; [dl|]. simpl. field.
Qed.

Lemma gauss_kernel_continuity : continuity gauss_kernel.
Proof.
  intros x. apply derivable_continuous_pt.
  exists (- x * gauss_kernel x). apply gauss_kernel_deriv.
Qed.

Definition gauss_integral : R -> R :=
  integral_from_0 gauss_kernel gauss_kernel_continuity.

(** Density and cumulative distribution function of the standard normal law.
    The distribution function is one half plus the integral of the density
    from 0 to [x]; [norm_cdf_deriv], [norm_cdf_limit_left] and
    [norm_cdf_limit_right] below show that it is the primitive of the density
    that tends to 0 at minus infinity and to 1 at plus infinity. *)
Definition norm_pdf (x : R) : R := gauss_kernel x / sqrt (2 * PI).

Definition norm_cdf (x : R) : R := 1 / 2 + gauss_integral x / sqrt (2 * PI).





(* ================================================================= *)
(** ** Python values, exceptions and the presentation trace *)

Open Scope string_scope.
Open Scope list_scope.

(** The exceptions the modelled code can raise. *)
Inductive exn : Type :=
| ValueError (msg : string)
| ZeroDivisionError
| OverflowError
| IndexError.

(** Outcome of a Python call: a returned value or a raised exception. *)
Inductive result (A : Type) : Type :=
| Return (a : A)
| Raise (e : exn).

Arguments Return {A} a.
Arguments Raise {A} e.

Definition bind {A B : Type} (m : result A) (k : A -> result B) : result B :=
  match m with
  | Return a => k a
  | Raise e => Raise e
  end.

Notation "x <- m ;; k" := (bind m (fun x => k))
  (at level 61, m at next level, right associativity).

(** Python comparisons [x <= y] and [x < y] on floats. *)
Definition Rleb (x y : R) : bool := if Rle_dec x y then true else false.
Definition Rltb (x y : R) : bool := if Rlt_dec x y then true else false.

(** Python's [x / y] on floats: division by zero raises.  (In the grid loop
    the numerator is a numpy float, whose division by zero yields inf or nan
    with a warning instead; [main] reaches the loop only with a positive
    strike, where the two divisions agree.) *)
Definition truediv (x y : R) : result R :=
  if Req_dec_T y 0 then Raise ZeroDivisionError else Return (x / y).

(* ================================================================= *)
(** ** [black_scholes] (src/app.py, lines 7-20) *)

(** [S0] is the parameter [S] of the source ([S] is the successor of [nat]).
    [np.log] of a non-positive number is nan or -inf, with a warning and no
    exception; [ln] is 0 there, and no statement below depends on that
    value. *)
Definition black_scholes (S0 K T r sigma : R) (option_type : string) : result R :=
  if Rleb T 0 || Rleb sigma 0 then Return 0
  else
    q <- truediv S0 K ;;
    let d1 := (ln q + (r + 0.5 * sigma ^ 2) * T) / (sigma * sqrt T) in
    let d2 := d1 - sigma * sqrt T in
    if option_type =? "call" then
      Return (S0 * norm_cdf d1 - K * exp (- r * T) * norm_cdf d2)
    else if option_type =? "put" then
      Return (K * exp (- r * T) * norm_cdf (- d2) - S0 * norm_cdf (- d1))
    else Raise (ValueError "option_type must be 'call' or 'put'").

(** Python's [x ** 2] on floats raises OverflowError when the result is
    beyond the doubles, that is when the square rounds to infinity: from
    [2^1024 - 2^970] on (for a double [x], from 1.3407807929942597e154 on). *)
Definition pow_overflow_bound : R := 2 ^ 1024 - 2 ^ 970.

Definition float_pow2 (x : R) : result R :=
  if Rle_dec pow_overflow_bound (x ^ 2) then Raise OverflowError
  else Return (x ^ 2).

(** Lines 7-20 once more, with that exception: the operations of line 11 in
    the order Python evaluates them ([S / K], then [sigma ** 2]), each of
    which may raise, before the option type is looked at.  It is
    [black_scholes] wherever the square does not overflow
    ([black_scholes_exn_no_overflow]); the statements about which exception
    is raised, and when none is, are made on this definition. *)
Definition black_scholes_exn (S0 K T r sigma : R) (option_type : string)
  : result R :=
  if Rleb T 0 || Rleb sigma 0 then Return 0
  else
    q <- truediv S0 K ;;
    sigma2 <- float_pow2 sigma ;;
    let d1 := (ln q + (r + 0.5 * sigma2) * T) / (sigma * sqrt T) in
    let d2 := d1 - sigma * sqrt T in
    if option_type =? "call" then
      Return (S0 * norm_cdf d1 - K * exp (- r * T) * norm_cdf d2)
    else if option_type =? "put" then
      Return (K * exp (- r * T) * norm_cdf (- d2) - S0 * norm_cdf (- d1))
    else Raise (ValueError "option_type must be 'call' or 'put'").

(** The pricing operation as the specification words it: the option kind is
    an enumeration, [d1] and [d2] are the auxiliary terms of section 4.1. *)
Inductive kind : Type := Call | Put.

Definition kind_name (k : kind) : string :=
  match k with
  | Call => "call"
  | Put => "put"
  end.




(* ================================================================= *)
(** ** numpy arrays used by [main] *)

(** [np.linspace start stop num]: [num] evenly spaced samples over the closed
    interval from [start] to [stop] (used with [num = 10]). *)
Definition linspace (start stop : R) (num : nat) : list R :=
  let step := (stop - start) / INR (num - 1) in
  map (fun i => start + INR i * step) (seq 0 num).

(** A two-dimensional array, as the list of its rows. *)
Definition array2 : Type := list (list R).

(** [np.meshgrid x y] with the default indexing: both arrays have one row per
    element of [y] and one column per element of [x]. *)
Definition meshgrid (x y : list R) : array2 * array2 :=
  (map (fun _ => x) y, map (fun yi => map (fun _ => yi) x) y).

Definition zeros_like (a : array2) : array2 := map (map (fun _ => 0)) a.

Definition shape (a : array2) : nat * nat :=
  (List.length a, List.length (hd [] a)).

Fixpoint list_set {A : Type} (l : list A) (i : nat) (v : A) : option (list A) :=
  match l, i with
  | [], _ => None
  | _ :: t, O => Some (v :: t)
  | x :: t, S i' => option_map (cons x) (list_set t i' v)
  end.

(** [a[i, j]]; an index out of range raises. *)
Definition getitem (a : array2) (i j : nat) : result R :=
  match nth_error a i with
  | Some row =>
      match nth_error row j with
      | Some v => Return v
      | None => Raise IndexError
      end
  | None => Raise IndexError
  end.

(** [a[i, j] = v]; an index out of range raises. *)
Definition setitem (a : array2) (i j : nat) (v : R) : result array2 :=
  match nth_error a i with
  | Some row =>
      match list_set row j v with
      | Some row' =>
          match list_set a i row' with
          | Some a' => Return a'
          | None => Raise IndexError
          end
      | None => Raise IndexError
      end
  | None => Raise IndexError
  end.

(* ================================================================= *)
(** ** The presentation layer: [main] (src/app.py, lines 22-109) *)

(** A heatmap handed to [st.pyplot]: the cell values and the tick labels
    (the numbers that the code formats with two decimals). *)
Record heatmap : Type := mk_heatmap {
  hm_data : array2;
  hm_xticklabels : list R;
  hm_yticklabels : list R;
  hm_title : string
}.

(** What a run of [main] shows to the user, in order, together with the
    calls it makes to the pricing engine.  Numbers shown through a format
    string are carried unformatted. *)
Inductive event : Type :=
| st_title (body : string)
| st_write (body : string)
| st_sidebar_header (body : string)
| st_sidebar_write (body : string)
| st_error (body : string)
| st_write_price (label : string) (price : R)
| st_pyplot (fig : heatmap)
| st_markdown_footer
| engine_call (S0 K T r sigma : R) (option_type : string) (res : result R).

(** A presentation computation: the events produced so far and the outcome. *)
Definition ui (A : Type) : Type := (list event * result A)%type.

Definition ui_ret {A : Type} (a : A) : ui A := ([], Return a).

Definition ui_bind {A B : Type} (m : ui A) (k : A -> ui B) : ui B :=
  match m with
  | (t1, Return a) => let (t2, res) := k a in (t1 ++ t2, res)
  | (t1, Raise e) => (t1, Raise e)
  end.

Notation "x <~ m ;; k" := (ui_bind m (fun x => k))
  (at level 61, m at next level, right associativity).
Notation "m ;;; k" := (ui_bind m (fun _ => k))
  (at level 61, right associativity).

Definition emit (e : event) : ui unit := ([e], Return tt).

Definition lift {A : Type} (m : result A) : ui A := ([], m).

(** A call of the engine from [main]: the call and its outcome are recorded,
    an exception propagates. *)
Definition call_black_scholes (S0 K T r sigma : R) (option_type : string) : ui R :=
  let res := black_scholes S0 K T r sigma option_type in
  ([engine_call S0 K T r sigma option_type res], res).

(** [for i in idx: st = body i st]. *)
Fixpoint for_range {A : Type} (idx : list nat) (body : nat -> A -> ui A) (st : A)
  : ui A :=
  match idx with
  | [] => ui_ret st
  | i :: rest => st' <~ body i st ;; for_range rest body st'
  end.

Definition range (n : nat) : list nat := seq 0 n.

(** Body of the inner loop (lines 64-69). *)
Definition fill_cell (S_grid sigma_grid : array2) (K T r : R) (i j : nat)
  (st : array2 * array2) : ui (array2 * array2) :=
  let '(call_prices, put_prices) := st in
  s <~ lift (getitem S_grid i j) ;;
  v <~ lift (getitem sigma_grid i j) ;;
  c <~ call_black_scholes s K T r v "call" ;;
  call_prices' <~ lift (setitem call_prices i j c) ;;
  s' <~ lift (getitem S_grid i j) ;;
  v' <~ lift (getitem sigma_grid i j) ;;
  p <~ call_black_scholes s' K T r v' "put" ;;
  put_prices' <~ lift (setitem put_prices i j p) ;;
  ui_ret (call_prices', put_prices').

(** The two nested loops (lines 62-69). *)
Definition fill_grids (S_grid sigma_grid : array2) (K T r : R)
  (st : array2 * array2) : ui (array2 * array2) :=
  for_range (range (fst (shape S_grid)))
    (fun i st1 =>
       for_range (range (snd (shape S_grid)))
         (fun j st2 => fill_cell S_grid sigma_grid K T r i j st2) st1)
    st.

Record grids : Type := mk_grids {
  S_range : list R;
  sigma_range : list R;
  call_prices : array2;
  put_prices : array2
}.

(** The grid computation of [main] (lines 46-69), which the specification
    calls buildGrid. *)
Definition main_grid (S0 K T r sigma : R) : ui grids :=
  let spot_steps := 10%nat in
  let vol_steps := 10%nat in
  let S_min := S0 * 0.8 in
  let S_max := S0 * 1.2 in
  let sigma_min := sigma * 0.5 in
  let sigma_max := sigma * 1.5 in
  let S_range := linspace S_min S_max spot_steps in
  let sigma_range := linspace sigma_min sigma_max vol_steps in
  let '(S_grid, sigma_grid) := meshgrid S_range sigma_range in
  let call_prices := zeros_like S_grid in
  let put_prices := zeros_like S_grid in
  st <~ fill_grids S_grid sigma_grid K T r (call_prices, put_prices) ;;
  ui_ret (mk_grids S_range sigma_range (fst st) (snd st)).

Definition validation_message : string :=
  "Please make sure S, K, and sigma are positive values, and T is non-negative.".

(** [main], given the values [S0 K T r sigma] returned by the five sidebar
    number inputs (lines 29-33). *)
Definition main (S0 K T r sigma : R) : ui unit :=
  emit (st_title "Interactive Black-Scholes Option Pricing Model") ;;;
  emit (st_write "Welcome! This model helps you explore the pricing of European call and put options using the Black-Scholes model. Visualize option prices with changing stock prices and volatility through heatmaps.") ;;;
  emit (st_sidebar_header "Set Your Parameters") ;;;
  emit (st_sidebar_write "Adjust values to see how they impact the option prices!") ;;;
  if Rleb S0 0 || Rleb K 0 || Rltb T 0 || Rleb sigma 0 then
    emit (st_error validation_message)
  else
    call_price <~ call_black_scholes S0 K T r sigma "call" ;;
    put_price <~ call_black_scholes S0 K T r sigma "put" ;;
    emit (st_write "### Calculated Option Prices:") ;;;
    emit (st_write_price "**Estimated Call Price:** $" call_price) ;;;
    emit (st_write_price "**Estimated Put Price:** $" put_price) ;;;
    g <~ main_grid S0 K T r sigma ;;
    emit (st_write "### Call Option Prices Heatmap") ;;;
    emit (st_pyplot (mk_heatmap (call_prices g) (S_range g) (sigma_range g)
                       "Call Prices Heatmap")) ;;;
    emit (st_write "### Put Option Prices Heatmap") ;;;
    emit (st_pyplot (mk_heatmap (put_prices g) (S_range g) (sigma_range g)
                       "Put Prices Heatmap")) ;;;
    emit (st_write "---") ;;;
    emit st_markdown_footer.

(** Whether a run invoked the pricing engine. *)
Definition is_engine_call (e : event) : bool :=
  match e with
  | engine_call _ _ _ _ _ _ _ => true
  | _ => false
  end.

Definition engine_invoked (t : list event) : bool := existsb is_engine_call t.

(** Whether an event is the error box of [st.error]. *)
Definition is_error (e : event) : bool :=
  match e with
  | st_error _ => true
  | _ => false
  end.

(** What [main] shows before it looks at the inputs (lines 23-27). *)
Definition main_preamble : list event :=
  [ st_title "Interactive Black-Scholes Option Pricing Model";
    st_write "Welcome! This model helps you explore the pricing of European call and put options using the Black-Scholes model. Visualize option prices with changing stock prices and volatility through heatmaps.";
    st_sidebar_header "Set Your Parameters";
    st_sidebar_write "Adjust values to see how they impact the option prices!" ].

(** The validation test of line 35. *)
Definition rejected (S0 K T r sigma : R) : Prop :=
  S0 <= 0 \/ K <= 0 \/ T < 0 \/ sigma <= 0.

(** The returned price, 0 when the call raises. *)
Definition price_or_zero (S0 K T r sigma : R) (option_type : string) : R :=
  match black_scholes S0 K T r sigma option_type with
  | Return v => v
  | Raise _ => 0
  end.

(** Every engine call recorded in a trace returned 0. *)
Definition returns_zero (e : event) : Prop :=
  match e with
  | engine_call _ _ _ _ _ _ res => res = Return 0
  | _ => True
  end.

(** [l] holds [n] evenly spaced values from [lo] to [hi], both included. *)
Definition evenly_spaced (l : list R) (lo hi : R) (n : nat) : Prop :=
  List.length l = n
  /\ nth 0 l 0 = lo
  /\ nth (n - 1) l 0 = hi
  /\ forall i, (i < n)%nat -> nth i l 0 = lo + INR i * ((hi - lo) / INR (n - 1)).

(** [a] has [rows] rows of [cols] cells. *)
Definition has_shape (a : array2) (rows cols : nat) : Prop :=
  List.length a = rows /\ Forall (fun row => List.length row = cols) a.

(** The cell of row [i] and column [j], 0 outside of the array. *)
Definition cell (a : array2) (i j : nat) : R := nth j (nth i a []) 0.

(** The array whose cell [(i, j)] is [f i j]. *)
Definition mk_grid (rows cols : nat) (f : nat -> nat -> R) : array2 :=
  map (fun i => map (fun j => f i j) (seq 0 cols)) (seq 0 rows).

(** The cells that the two loops have visited when they reach [(i, j)], and
    the content of an array at that point: the value where visited, else the
    initial 0. *)
Definition visited (i j i' j' : nat) : bool :=
  ((i' <? i) || ((i' =? i) && (j' <? j)))%nat.

Definition partial_fill (val : nat -> nat -> R) (i j : nat) : nat -> nat -> R :=
  fun i' j' => if visited i j i' j' then val i' j' else 0.

Definition update_cell (f : nat -> nat -> R) (i j : nat) (v : R) : nat -> nat -> R :=
  fun i' j' => if ((i' =? i) && (j' =? j))%nat then v else f i' j'.

(** The engine calls of a run, in order. *)
Definition engine_calls (t : list event) : list event := filter is_engine_call t.

(** The two engine calls of the loop body at row [i] and column [j], for the
    axes [x] (spot) and [y] (volatility), and the calls of the two loops. *)
Definition cell_events (x y : list R) (K T r : R) (i j : nat) : list event :=
  [ engine_call (nth j x 0) K T r (nth i y 0) "call"
      (black_scholes (nth j x 0) K T r (nth i y 0) "call");
    engine_call (nth j x 0) K T r (nth i y 0) "put"
      (black_scholes (nth j x 0) K T r (nth i y 0) "put") ].

Definition grid_events (x y : list R) (K T r : R) : list event :=
  flat_map
    (fun i => flat_map (fun j => cell_events x y K T r i j)
                (seq 0 (List.length x)))
    (seq 0 (List.length y)).

(** The bounds that the five number inputs of lines 29-33 declare
    ([min_value], [max_value]). *)
Definition widget_range (S0 K T r sigma : R) : Prop :=
  0.01 <= S0 /\ 0.01 <= K /\ 0 <= T /\ 0 <= r <= 1 /\ 0 <= sigma <= 1.

(* ================================================================= *)
(** ** Monotonicity from the sign of the derivative *)



(* ================================================================= *)
(** ** Wallis integrals *)












(* ================================================================= *)
(** ** The Gaussian integral *)












(* ================================================================= *)
(** ** Properties of the normal distribution function *)

Lemma sqrt_2PI_pos : 0 < sqrt (2 * PI).
Proof. apply sqrt_lt_R0. pose proof PI_RGT_0. lra. Qed.



Lemma norm_cdf_deriv x : derivable_pt_lim norm_cdf x (norm_pdf x).
Proof.
  unfold norm_cdf, norm_pdf, gauss_integral.
  eapply dl_ext; [dl|]. pose proof sqrt_2PI_pos. field. lra.
Qed.









(* ================================================================= *)
(** ** The normalised Black-Scholes value *)

Ltac dl_hook ::=
  lazymatch goal with
  | |- derivable_pt_lim (fun t => norm_cdf (@?f t)) _ _ =>
      apply (dl_comp f norm_cdf); [dl | apply norm_cdf_deriv]
  end.






(* ================================================================= *)
(** ** The pricing function, case by case *)

Lemma Rleb_true x y : x <= y -> Rleb x y = true.
Proof. intros H. unfold Rleb. destruct (Rle_dec x y); [reflexivity | contradiction]. Qed.

Lemma Rleb_false x y : y < x -> Rleb x y = false.
Proof. intros H. unfold Rleb. destruct (Rle_dec x y); [lra | reflexivity]. Qed.

Lemma Rltb_true x y : x < y -> Rltb x y = true.
Proof. intros H. unfold Rltb. destruct (Rlt_dec x y); [reflexivity | contradiction]. Qed.

Lemma Rltb_false x y : y <= x -> Rltb x y = false.
Proof. intros H. unfold Rltb. destruct (Rlt_dec x y); [lra | reflexivity]. Qed.

Lemma truediv_nonzero x y : y <> 0 -> truediv x y = Return (x / y).
Proof. intros H. unfold truediv. destruct (Req_dec_T y 0); [contradiction | reflexivity]. Qed.

(** The degenerate guard of line 8 comes first. *)
Lemma black_scholes_guard S0 K T r sigma option_type :
  T <= 0 \/ sigma <= 0 -> black_scholes S0 K T r sigma option_type = Return 0.
Proof.
  intros [H | H]; unfold black_scholes.
  - rewrite (Rleb_true _ _ H). reflexivity.
  - rewrite (Rleb_true _ _ H), orb_true_r. reflexivity.
Qed.

Lemma black_scholes_past_guard S0 K T r sigma option_type :
  0 < T -> 0 < sigma -> K <> 0 ->
  black_scholes S0 K T r sigma option_type =
  let d1 := (ln (S0 / K) + (r + 0.5 * sigma ^ 2) * T) / (sigma * sqrt T) in
  let d2 := d1 - sigma * sqrt T in
  if (option_type =? "call")%string then
    Return (S0 * norm_cdf d1 - K * exp (- r * T) * norm_cdf d2)
  else if (option_type =? "put")%string then
    Return (K * exp (- r * T) * norm_cdf (- d2) - S0 * norm_cdf (- d1))
  else Raise (ValueError "option_type must be 'call' or 'put'").
Proof.
  intros HT Hs HK. unfold black_scholes.
  rewrite (Rleb_false _ _ HT), (Rleb_false _ _ Hs), (truediv_nonzero _ _ HK).
  reflexivity.
Qed.

(** A value error can only come from the last branch. *)
Lemma black_scholes_ValueError S0 K T r sigma option_type msg :
  black_scholes S0 K T r sigma option_type = Raise (ValueError msg) ->
  0 < T /\ 0 < sigma.
Proof.
  intros H.
  destruct (Rle_dec T 0) as [h1|h1].
  { rewrite black_scholes_guard in H by (left; exact h1). discriminate. }
  destruct (Rle_dec sigma 0) as [h2|h2].
  { rewrite black_scholes_guard in H by (right; exact h2). discriminate. }
  split; lra.
Qed.

(** With a non-zero strike a call or put price is always returned. *)
Lemma black_scholes_returns S0 K T r sigma k :
  K <> 0 -> exists v, black_scholes S0 K T r sigma (kind_name k) = Return v.
Proof.
  intros HK.
  destruct (Rle_dec T 0) as [h1|h1].
  { exists 0. apply black_scholes_guard. left; exact h1. }
  destruct (Rle_dec sigma 0) as [h2|h2].
  { exists 0. apply black_scholes_guard. right; exact h2. }
  rewrite black_scholes_past_guard by lra.
  destruct k; cbn; eexists; reflexivity.
Qed.


(** The exceptions of line 11. *)
Lemma pow_overflow_bound_large : 3 <= pow_overflow_bound.
Proof.
  unfold pow_overflow_bound.
  replace 1024%nat with (970 + 54)%nat by reflexivity. rewrite pow_add.
  assert (H1 : 1 <= 2 ^ 970) by (apply pow_R1_Rle; lra).
  assert (H2 : 4 <= 2 ^ 54) by (simpl; lra).
  nra.
Qed.

Lemma float_pow2_no_overflow x :
  x ^ 2 < pow_overflow_bound -> float_pow2 x = Return (x ^ 2).
Proof.
  intros H. unfold float_pow2.
  destruct (Rle_dec pow_overflow_bound (x ^ 2)); [lra | reflexivity].
Qed.

Lemma float_pow2_overflow x :
  pow_overflow_bound <= x ^ 2 -> float_pow2 x = Raise OverflowError.
Proof.
  intros H. unfold float_pow2.
  destruct (Rle_dec pow_overflow_bound (x ^ 2)); [reflexivity | contradiction].
Qed.

Lemma black_scholes_exn_guard S0 K T r sigma option_type :
  T <= 0 \/ sigma <= 0 -> black_scholes_exn S0 K T r sigma option_type = Return 0.
Proof.
  intros [H | H]; unfold black_scholes_exn.
  - rewrite (Rleb_true _ _ H). reflexivity.
  - rewrite (Rleb_true _ _ H), orb_true_r. reflexivity.
Qed.

Lemma black_scholes_exn_no_overflow S0 K T r sigma option_type :
  sigma ^ 2 < pow_overflow_bound ->
  black_scholes_exn S0 K T r sigma option_type =
  black_scholes S0 K T r sigma option_type.
Proof.
  intros H. unfold black_scholes_exn, black_scholes.
  destruct (Rleb T 0 || Rleb sigma 0); [reflexivity|].
  destruct (truediv S0 K) as [q|e]; [|reflexivity]. cbn [bind].
  rewrite (float_pow2_no_overflow _ H). reflexivity.
Qed.

Lemma black_scholes_exn_overflow S0 K T r sigma option_type :
  0 < T -> 0 < sigma -> K <> 0 -> pow_overflow_bound <= sigma ^ 2 ->
  black_scholes_exn S0 K T r sigma option_type = Raise OverflowError.
Proof.
  intros HT Hs HK Ho. unfold black_scholes_exn.
  rewrite (Rleb_false _ _ HT), (Rleb_false _ _ Hs), (truediv_nonzero _ _ HK).
  cbn [orb bind]. rewrite (float_pow2_overflow _ Ho). reflexivity.
Qed.

Lemma black_scholes_exn_zero_strike S0 T r sigma option_type :
  0 < T -> 0 < sigma ->
  black_scholes_exn S0 0 T r sigma option_type = Raise ZeroDivisionError.
Proof.
  intros HT Hs. unfold black_scholes_exn.
  rewrite (Rleb_false _ _ HT), (Rleb_false _ _ Hs). cbn [orb].
  unfold truediv. destruct (Req_dec_T 0 0) as [_|H]; [reflexivity | lra].
Qed.

(** The end-to-end example of the specification: at the money, one year,
    rate 0.05 and volatility 0.2, the auxiliary terms are 0.35 and 0.15. *)
Example black_scholes_textbook_call :
  black_scholes 100 100 1 0.05 0.2 "call" =
  Return (100 * norm_cdf 0.35 - 100 * exp (- 0.05) * norm_cdf 0.15).
Proof.
  rewrite black_scholes_past_guard by lra. cbv zeta. cbn [String.eqb Ascii.eqb Bool.eqb].
  replace (100 / 100) with 1 by lra. rewrite ln_1, sqrt_1.
  replace ((0 + (0.05 + 0.5 * 0.2 ^ 2) * 1) / (0.2 * 1)) with 0.35 by lra.
  replace (0.35 - 0.2 * 1) with 0.15 by lra.
  replace (- (0.05) * 1) with (- 0.05) by lra. reflexivity.
Qed.

Example black_scholes_textbook_put :
  black_scholes 100 100 1 0.05 0.2 "put" =
  Return (100 * exp (- 0.05) * norm_cdf (- (0.15)) - 100 * norm_cdf (- (0.35))).
Proof.
  rewrite black_scholes_past_guard by lra. cbv zeta. cbn [String.eqb Ascii.eqb Bool.eqb].
  replace (100 / 100) with 1 by lra. rewrite ln_1, sqrt_1.
  replace ((0 + (0.05 + 0.5 * 0.2 ^ 2) * 1) / (0.2 * 1)) with 0.35 by lra.
  replace (0.35 - 0.2 * 1) with 0.15 by lra.
  replace (- (0.05) * 1) with (- 0.05) by lra. reflexivity.
Qed.

(** The two prices in terms of the normalised value [bs_core]. *)
Section Normalised.
Variables (S0 K T r sigma : R).
Hypotheses (HS : 0 < S0) (HK : 0 < K) (HT : 0 < T) (Hsigma : 0 < sigma).

Let v := sigma * sqrt T.
Let x := ln (S0 / K) + r * T.







End Normalised.






(* ================================================================= *)
(** ** Traces and outcomes of presentation computations *)

Lemma ui_bind_fst {A B} (m : ui A) (k : A -> ui B) :
  fst (ui_bind m k) =
  fst m ++ match snd m with Return a => fst (k a) | Raise _ => [] end.
Proof.
  destruct m as [t1 [a|e]]; simpl.
  - destruct (k a); reflexivity.
  - rewrite app_nil_r. reflexivity.
Qed.

Lemma ui_bind_snd {A B} (m : ui A) (k : A -> ui B) :
  snd (ui_bind m k) =
  match snd m with Return a => snd (k a) | Raise e => Raise e end.
Proof.
  destruct m as [t1 [a|e]]; simpl; [destruct (k a)|]; reflexivity.
Qed.

Lemma ui_bind_Forall {A B} (P : event -> Prop) (m : ui A) (k : A -> ui B) :
  Forall P (fst m) -> (forall a, Forall P (fst (k a))) ->
  Forall P (fst (ui_bind m k)).
Proof.
  intros Hm Hk. rewrite ui_bind_fst. apply Forall_app. split; [exact Hm|].
  destruct (snd m); [apply Hk | constructor].
Qed.

Lemma for_range_Forall {A} (P : event -> Prop) idx (body : nat -> A -> ui A) st :
  (forall i s, Forall P (fst (body i s))) ->
  Forall P (fst (for_range idx body st)).
Proof.
  intros Hb. revert st. induction idx as [|i rest IH]; intros st; simpl.
  - constructor.
  - apply ui_bind_Forall; [apply Hb | exact IH].
Qed.

(* ================================================================= *)
(** ** Arrays *)

Lemma nth_error_map_seq {A} (g : nat -> A) s n i :
  (i < n)%nat -> nth_error (map g (seq s n)) i = Some (g (s + i)%nat).
Proof.
  revert s i. induction n as [|n IH]; intros s i Hi; [lia|].
  destruct i as [|i]; simpl.
  - rewrite Nat.add_0_r. reflexivity.
  - rewrite IH by lia. f_equal. f_equal. lia.
Qed.

Lemma list_set_map_seq {A} (g : nat -> A) s n i v :
  (i < n)%nat ->
  list_set (map g (seq s n)) i v =
  Some (map (fun k => if (k =? s + i)%nat then v else g k) (seq s n)).
Proof.
  revert s i. induction n as [|n IH]; intros s i Hi; [lia|].
  destruct i as [|i]; simpl.
  - rewrite Nat.add_0_r, Nat.eqb_refl. f_equal. f_equal.
    apply map_ext_in. intros k Hk. apply in_seq in Hk.
    destruct (Nat.eqb_spec k s); [lia | reflexivity].
  - rewrite IH by lia. simpl.
    destruct (Nat.eqb_spec s (s + S i)); [lia|].
    f_equal. f_equal. apply map_ext. intros k.
    replace (S (s + i))%nat with (s + S i)%nat by lia. reflexivity.
Qed.

Lemma mk_grid_ext rows cols f g :
  (forall i j, (i < rows)%nat -> (j < cols)%nat -> f i j = g i j) ->
  mk_grid rows cols f = mk_grid rows cols g.
Proof.
  intros H. unfold mk_grid. apply map_ext_in. intros i Hi. apply in_seq in Hi.
  apply map_ext_in. intros j Hj. apply in_seq in Hj. apply H; lia.
Qed.

Lemma getitem_mk_grid rows cols f i j :
  (i < rows)%nat -> (j < cols)%nat ->
  getitem (mk_grid rows cols f) i j = Return (f i j).
Proof.
  intros Hi Hj. unfold getitem, mk_grid.
  rewrite nth_error_map_seq by exact Hi.
  rewrite nth_error_map_seq by exact Hj. reflexivity.
Qed.

Lemma setitem_mk_grid rows cols f i j v :
  (i < rows)%nat -> (j < cols)%nat ->
  setitem (mk_grid rows cols f) i j v =
  Return (mk_grid rows cols (update_cell f i j v)).
Proof.
  intros Hi Hj. unfold setitem, mk_grid.
  rewrite nth_error_map_seq by exact Hi.
  rewrite list_set_map_seq by exact Hj.
  rewrite list_set_map_seq by exact Hi.
  apply f_equal. apply map_ext_in. intros k Hk. simpl.
  unfold update_cell. destruct (Nat.eqb_spec k i) as [->|Hne]; simpl; reflexivity.
Qed.

Lemma cell_mk_grid rows cols f i j :
  (i < rows)%nat -> (j < cols)%nat -> cell (mk_grid rows cols f) i j = f i j.
Proof.
  intros Hi Hj. pose proof (getitem_mk_grid rows cols f i j Hi Hj) as H.
  unfold getitem in H. unfold cell.
  destruct (nth_error (mk_grid rows cols f) i) as [row|] eqn:E1; [|discriminate].
  destruct (nth_error row j) as [v|] eqn:E2; [|discriminate].
  rewrite (nth_error_nth _ _ _ E1), (nth_error_nth _ _ _ E2).
  congruence.
Qed.

Lemma has_shape_mk_grid rows cols f : has_shape (mk_grid rows cols f) rows cols.
Proof.
  unfold has_shape, mk_grid. split.
  - rewrite length_map, length_seq. reflexivity.
  - apply Forall_forall. intros row Hrow. apply in_map_iff in Hrow.
    destruct Hrow as [i [<- _]]. rewrite length_map, length_seq. reflexivity.
Qed.

Lemma shape_mk_grid rows cols f :
  (0 < rows)%nat -> shape (mk_grid rows cols f) = (rows, cols).
Proof.
  intros H. unfold shape, mk_grid. rewrite length_map, length_seq.
  destruct rows as [|n]; [lia|]. simpl. rewrite length_map, length_seq. reflexivity.
Qed.

Lemma zeros_like_mk_grid rows cols f :
  zeros_like (mk_grid rows cols f) = mk_grid rows cols (fun _ _ => 0).
Proof.
  unfold zeros_like, mk_grid. rewrite map_map. apply map_ext. intros i.
  rewrite map_map. reflexivity.
Qed.

Lemma map_const_seq {A B} (c : B) (l : list A) :
  map (fun _ => c) l = map (fun _ => c) (seq 0 (List.length l)).
Proof.
  generalize 0%nat. induction l as [|a l IH]; intros s; simpl; [reflexivity|].
  f_equal. apply IH.
Qed.

Lemma list_as_map_seq (l : list R) :
  l = map (fun j => nth j l 0) (seq 0 (List.length l)).
Proof.
  apply (nth_ext _ _ 0 0).
  - rewrite length_map, length_seq. reflexivity.
  - intros n Hn.
    rewrite (nth_indep (map (fun j => nth j l 0) (seq 0 (List.length l)))
               0 (nth 0 l 0))
      by (rewrite length_map, length_seq; exact Hn).
    rewrite (map_nth (fun j => nth j l 0)), seq_nth by exact Hn. reflexivity.
Qed.

Lemma meshgrid_mk_grid x y :
  meshgrid x y =
  (mk_grid (List.length y) (List.length x) (fun _ j => nth j x 0),
   mk_grid (List.length y) (List.length x) (fun i _ => nth i y 0)).
Proof.
  unfold meshgrid, mk_grid. apply f_equal2.
  - rewrite (map_const_seq x y). apply map_ext. intros _. apply list_as_map_seq.
  - rewrite (list_as_map_seq y) at 1. rewrite map_map. apply map_ext. intros i.
    apply map_const_seq.
Qed.

Lemma linspace_length start stop num : List.length (linspace start stop num) = num.
Proof. unfold linspace. rewrite length_map, length_seq. reflexivity. Qed.

Lemma linspace_nth start stop num i :
  (i < num)%nat ->
  nth i (linspace start stop num) 0 =
  start + INR i * ((stop - start) / INR (num - 1)).
Proof.
  intros Hi. unfold linspace.
  rewrite (nth_indep _ 0 (start + INR 0 * ((stop - start) / INR (num - 1))))
    by (rewrite length_map, length_seq; exact Hi).
  rewrite (map_nth (fun i => start + INR i * ((stop - start) / INR (num - 1)))).
  rewrite seq_nth by exact Hi. reflexivity.
Qed.

Lemma linspace_evenly_spaced start stop num :
  (2 <= num)%nat -> evenly_spaced (linspace start stop num) start stop num.
Proof.
  intros Hn. unfold evenly_spaced.
  assert (Hpos : 0 < INR (num - 1)) by (apply lt_0_INR; lia).
  split; [apply linspace_length|]. split; [|split].
  - rewrite linspace_nth by lia. simpl. ring.
  - rewrite linspace_nth by lia. field. lra.
  - intros i Hi. apply linspace_nth, Hi.
Qed.

(* ================================================================= *)
(** ** The two nested loops of [main] *)

Ltac nat_cases :=
  repeat match goal with
    | |- context [(?a <? ?b)%nat] => destruct (Nat.ltb_spec a b)
    | |- context [(?a =? ?b)%nat] => destruct (Nat.eqb_spec a b)
    end;
  cbn [orb andb];
  first [reflexivity | lia | subst; reflexivity | subst; lia].

Lemma partial_fill_step val i j rows cols :
  mk_grid rows cols (update_cell (partial_fill val i j) i j (val i j)) =
  mk_grid rows cols (partial_fill val i (S j)).
Proof.
  apply mk_grid_ext. intros i' j' _ _. unfold update_cell, partial_fill, visited.
  nat_cases.
Qed.

Lemma partial_fill_next_row val i rows cols :
  mk_grid rows cols (partial_fill val i cols) =
  mk_grid rows cols (partial_fill val (S i) 0).
Proof.
  apply mk_grid_ext. intros i' j' _ Hj. unfold partial_fill, visited.
  nat_cases.
Qed.

Lemma partial_fill_none val rows cols :
  mk_grid rows cols (fun _ _ => 0) = mk_grid rows cols (partial_fill val 0 0).
Proof.
  apply mk_grid_ext. intros i' j' _ _. unfold partial_fill, visited.
  nat_cases.
Qed.

Lemma partial_fill_all val rows cols :
  mk_grid rows cols (partial_fill val rows 0) = mk_grid rows cols val.
Proof.
  apply mk_grid_ext. intros i' j' Hi _. unfold partial_fill, visited.
  nat_cases.
Qed.

Section Loops.
Variables (x y : list R) (K T r : R).
Variables (vc vp : nat -> nat -> R).

Let rows := List.length y.
Let cols := List.length x.
Let S_grid := mk_grid rows cols (fun _ j => nth j x 0).
Let sigma_grid := mk_grid rows cols (fun i _ => nth i y 0).

Hypothesis call_returns : forall i j, (i < rows)%nat -> (j < cols)%nat ->
  black_scholes (nth j x 0) K T r (nth i y 0) "call" = Return (vc i j).
Hypothesis put_returns : forall i j, (i < rows)%nat -> (j < cols)%nat ->
  black_scholes (nth j x 0) K T r (nth i y 0) "put" = Return (vp i j).

Lemma fill_cell_returns i j :
  (i < rows)%nat -> (j < cols)%nat ->
  snd (fill_cell S_grid sigma_grid K T r i j
         (mk_grid rows cols (partial_fill vc i j),
          mk_grid rows cols (partial_fill vp i j))) =
  Return (mk_grid rows cols (partial_fill vc i (S j)),
          mk_grid rows cols (partial_fill vp i (S j))).
Proof.
  intros Hi Hj. unfold fill_cell, S_grid, sigma_grid.
  rewrite !getitem_mk_grid by assumption.
  repeat (rewrite ui_bind_snd; cbn [snd lift call_black_scholes]).
  rewrite (call_returns i j Hi Hj).
  rewrite setitem_mk_grid by assumption.
  repeat (rewrite ui_bind_snd; cbn [snd lift call_black_scholes]).
  rewrite (put_returns i j Hi Hj).
  rewrite setitem_mk_grid by assumption.
  cbn [snd ui_ret]. rewrite !partial_fill_step. reflexivity.
Qed.

Lemma inner_loop_returns i n j :
  (i < rows)%nat -> (j + n = cols)%nat ->
  snd (for_range (seq j n)
         (fun j st => fill_cell S_grid sigma_grid K T r i j st)
         (mk_grid rows cols (partial_fill vc i j),
          mk_grid rows cols (partial_fill vp i j))) =
  Return (mk_grid rows cols (partial_fill vc i cols),
          mk_grid rows cols (partial_fill vp i cols)).
Proof.
  intros Hi. revert j. induction n as [|n IH]; intros j Hj; cbn [for_range seq].
  - replace j with cols by lia. reflexivity.
  - rewrite ui_bind_snd, fill_cell_returns by lia. apply IH. lia.
Qed.

Lemma outer_loop_returns n i :
  (i + n = rows)%nat ->
  snd (for_range (seq i n)
         (fun i st =>
            for_range (range cols)
              (fun j st' => fill_cell S_grid sigma_grid K T r i j st') st)
         (mk_grid rows cols (partial_fill vc i 0),
          mk_grid rows cols (partial_fill vp i 0))) =
  Return (mk_grid rows cols vc, mk_grid rows cols vp).
Proof.
  revert i. induction n as [|n IH]; intros i Hi; cbn [for_range seq].
  - replace i with rows by lia. rewrite !partial_fill_all. reflexivity.
  - rewrite ui_bind_snd. unfold range.
    rewrite inner_loop_returns by lia.
    rewrite !partial_fill_next_row. apply IH. lia.
Qed.

Lemma fill_grids_returns :
  (0 < rows)%nat ->
  snd (fill_grids S_grid sigma_grid K T r
         (zeros_like S_grid, zeros_like S_grid)) =
  Return (mk_grid rows cols vc, mk_grid rows cols vp).
Proof.
  intros Hrows. unfold fill_grids, S_grid.
  rewrite shape_mk_grid by exact Hrows. cbn [fst snd].
  rewrite zeros_like_mk_grid.
  rewrite (partial_fill_none vc) at 1. rewrite (partial_fill_none vp).
  unfold range at 1. apply outer_loop_returns. lia.
Qed.

End Loops.

(* ================================================================= *)
(** ** The grid computation and [main] *)

Lemma black_scholes_price_or_zero S0 K T r sigma k :
  K <> 0 ->
  black_scholes S0 K T r sigma (kind_name k) =
  Return (price_or_zero S0 K T r sigma (kind_name k)).
Proof.
  intros HK. unfold price_or_zero.
  destruct (black_scholes_returns S0 K T r sigma k HK) as [v ->]. reflexivity.
Qed.

Lemma main_grid_returns S0 K T r sigma :
  K <> 0 ->
  let xs := linspace (S0 * 0.8) (S0 * 1.2) 10 in
  let ys := linspace (sigma * 0.5) (sigma * 1.5) 10 in
  snd (main_grid S0 K T r sigma) =
  Return (mk_grids xs ys
            (mk_grid 10 10
               (fun i j => price_or_zero (nth j xs 0) K T r (nth i ys 0) "call"))
            (mk_grid 10 10
               (fun i j => price_or_zero (nth j xs 0) K T r (nth i ys 0) "put"))).
Proof.
  intros HK xs ys. unfold main_grid. fold xs ys.
  rewrite meshgrid_mk_grid.
  rewrite ui_bind_snd.
  rewrite (fill_grids_returns xs ys K T r
             (fun i j => price_or_zero (nth j xs 0) K T r (nth i ys 0) "call")
             (fun i j => price_or_zero (nth j xs 0) K T r (nth i ys 0) "put")).
  - unfold xs, ys. rewrite !linspace_length. reflexivity.
  - intros i j _ _. apply (black_scholes_price_or_zero _ K T r _ Call HK).
  - intros i j _ _. apply (black_scholes_price_or_zero _ K T r _ Put HK).
  - unfold ys. rewrite linspace_length. lia.
Qed.

Lemma call_black_scholes_Forall (P : event -> Prop) S0 K T r sigma option_type :
  P (engine_call S0 K T r sigma option_type
       (black_scholes S0 K T r sigma option_type)) ->
  Forall P (fst (call_black_scholes S0 K T r sigma option_type)).
Proof. intros H. cbn. constructor; [exact H | constructor]. Qed.

Lemma emit_Forall (P : event -> Prop) e : P e -> Forall P (fst (emit e)).
Proof. intros H. cbn. constructor; [exact H | constructor]. Qed.

Lemma main_grid_Forall (P : event -> Prop) S0 K T r sigma :
  (forall s v option_type,
     P (engine_call s K T r v option_type (black_scholes s K T r v option_type))) ->
  Forall P (fst (main_grid S0 K T r sigma)).
Proof.
  intros HP. unfold main_grid.
  destruct (meshgrid _ _) as [S_grid sigma_grid].
  apply ui_bind_Forall; [|intros a; constructor].
  unfold fill_grids. apply for_range_Forall. intros i st.
  apply for_range_Forall. intros j [cp pp]. unfold fill_cell.
  repeat (apply ui_bind_Forall;
          [first [apply call_black_scholes_Forall, HP | constructor] | intros ?]).
  constructor.
Qed.

Lemma engine_call_returns_zero S0 K r sigma option_type :
  returns_zero (engine_call S0 K 0 r sigma option_type
                  (black_scholes S0 K 0 r sigma option_type)).
Proof. cbn. apply black_scholes_guard. left; lra. Qed.

Lemma validation_true S0 K T r sigma :
  rejected S0 K T r sigma ->
  Rleb S0 0 || Rleb K 0 || Rltb T 0 || Rleb sigma 0 = true.
Proof.
  unfold rejected, Rleb, Rltb. intros H.
  destruct (Rle_dec S0 0), (Rle_dec K 0), (Rlt_dec T 0), (Rle_dec sigma 0);
    try reflexivity. exfalso. tauto.
Qed.

Lemma validation_false S0 K T r sigma :
  ~ rejected S0 K T r sigma ->
  Rleb S0 0 || Rleb K 0 || Rltb T 0 || Rleb sigma 0 = false.
Proof.
  unfold rejected, Rleb, Rltb. intros H.
  destruct (Rle_dec S0 0), (Rle_dec K 0), (Rlt_dec T 0), (Rle_dec sigma 0);
    try reflexivity; exfalso; tauto.
Qed.

Lemma main_rejected S0 K T r sigma :
  rejected S0 K T r sigma ->
  main S0 K T r sigma =
  (main_preamble ++ [st_error validation_message], Return tt).
Proof.
  intros H. unfold main. rewrite (validation_true _ _ _ r _ H). reflexivity.
Qed.

Lemma main_accepted_trace S0 K T r sigma :
  ~ rejected S0 K T r sigma ->
  exists rest,
    fst (main S0 K T r sigma) =
    main_preamble
    ++ engine_call S0 K T r sigma "call" (black_scholes S0 K T r sigma "call")
    :: rest.
Proof.
  intros H. unfold main. rewrite (validation_false _ _ _ r _ H).
  rewrite !ui_bind_fst. cbn [fst snd emit call_black_scholes app main_preamble].
  eexists. reflexivity.
Qed.

Lemma main_accepted_returns S0 K T r sigma :
  ~ rejected S0 K T r sigma -> snd (main S0 K T r sigma) = Return tt.
Proof.
  intros H. unfold main. rewrite (validation_false _ _ _ r _ H).
  assert (HK : K <> 0) by (unfold rejected in H; lra).
  pose proof (black_scholes_price_or_zero S0 K T r sigma Call HK) as Hc.
  pose proof (black_scholes_price_or_zero S0 K T r sigma Put HK) as Hp.
  cbn [kind_name] in Hc, Hp.
  repeat (rewrite ui_bind_snd; cbn [snd emit call_black_scholes]).
  rewrite Hc.
  repeat (rewrite ui_bind_snd; cbn [snd emit call_black_scholes]).
  rewrite Hp.
  repeat (rewrite ui_bind_snd; cbn [snd emit call_black_scholes]).
  rewrite (main_grid_returns S0 K T r sigma HK).
  repeat (rewrite ui_bind_snd; cbn [snd emit call_black_scholes]).
  reflexivity.
Qed.

Lemma engine_invoked_app t1 t2 :
  engine_invoked (t1 ++ t2) = engine_invoked t1 || engine_invoked t2.
Proof. apply existsb_app. Qed.

Lemma main_accepted_Forall (P : event -> Prop) S0 K T r sigma :
  ~ rejected S0 K T r sigma ->
  (forall e, is_engine_call e = false -> is_error e = false -> P e) ->
  (forall s v option_type,
     P (engine_call s K T r v option_type (black_scholes s K T r v option_type))) ->
  Forall P (fst (main S0 K T r sigma)).
Proof.
  intros Hacc Hother Hcall. unfold main.
  rewrite (validation_false _ _ _ r _ Hacc).
  repeat (apply ui_bind_Forall;
          [first [apply call_black_scholes_Forall, Hcall
                 | apply main_grid_Forall, Hcall
                 | apply emit_Forall, Hother; reflexivity]
          | intros ?]).
  apply emit_Forall, Hother; reflexivity.
Qed.

Lemma main_accepted_trace_zero S0 K r sigma :
  ~ rejected S0 K 0 r sigma ->
  Forall returns_zero (fst (main S0 K 0 r sigma)).
Proof.
  intros Hacc. apply main_accepted_Forall; [exact Hacc| |].
  - intros e He _. destruct e; try exact I. discriminate.
  - intros s v option_type. apply engine_call_returns_zero.
Qed.

Lemma main_accepted_no_error S0 K T r sigma :
  ~ rejected S0 K T r sigma ->
  ~ In (st_error validation_message) (fst (main S0 K T r sigma)).
Proof.
  intros Hacc Hin.
  assert (H : Forall (fun e => is_error e = false) (fst (main S0 K T r sigma))).
  { apply main_accepted_Forall; [exact Hacc| |].
    - intros e _ He. exact He.
    - reflexivity. }
  rewrite Forall_forall in H. specialize (H _ Hin). discriminate.
Qed.

Lemma ui_bind_In_later {A B} (m : ui A) (k : A -> ui B) a e :
  snd m = Return a -> In e (fst (k a)) -> In e (fst (ui_bind m k)).
Proof.
  intros Hm He. rewrite ui_bind_fst, Hm. apply in_or_app. right. exact He.
Qed.

(** The two heatmaps that an accepted run draws are the arrays of
    [main_grid], with its axes as tick labels. *)
Lemma main_accepted_heatmaps S0 K T r sigma g :
  ~ rejected S0 K T r sigma ->
  snd (main_grid S0 K T r sigma) = Return g ->
  In (st_pyplot (mk_heatmap (call_prices g) (S_range g) (sigma_range g)
                   "Call Prices Heatmap")) (fst (main S0 K T r sigma))
  /\ In (st_pyplot (mk_heatmap (put_prices g) (S_range g) (sigma_range g)
                      "Put Prices Heatmap")) (fst (main S0 K T r sigma)).
Proof.
  intros Hacc Hg. unfold main. rewrite (validation_false _ _ _ r _ Hacc).
  assert (HK : K <> 0) by (unfold rejected in Hacc; lra).
  pose proof (black_scholes_price_or_zero S0 K T r sigma Call HK) as Hc.
  pose proof (black_scholes_price_or_zero S0 K T r sigma Put HK) as Hp.
  cbn [kind_name] in Hc, Hp.
  split.
  - do 4 (eapply ui_bind_In_later; [reflexivity|]).
    eapply ui_bind_In_later; [exact Hc|].
    eapply ui_bind_In_later; [exact Hp|].
    do 3 (eapply ui_bind_In_later; [reflexivity|]).
    eapply ui_bind_In_later; [exact Hg|].
    eapply ui_bind_In_later; [reflexivity|].
    rewrite ui_bind_fst. apply in_or_app. left. left. reflexivity.
  - do 4 (eapply ui_bind_In_later; [reflexivity|]).
    eapply ui_bind_In_later; [exact Hc|].
    eapply ui_bind_In_later; [exact Hp|].
    do 3 (eapply ui_bind_In_later; [reflexivity|]).
    eapply ui_bind_In_later; [exact Hg|].
    do 3 (eapply ui_bind_In_later; [reflexivity|]).
    rewrite ui_bind_fst. apply in_or_app. left. left. reflexivity.
Qed.

(* ================================================================= *)
(** ** The claims of the specification *)



(** C2: when maturity <= 0 or volatility <= 0 the price is exactly 0, for
    both kinds and whatever spot, strike and rate are; in particular at
    maturity 0 and at volatility 0. *)
Theorem C2_degenerate_zero S0 K T r sigma k :
  (T <= 0 \/ sigma <= 0 -> black_scholes S0 K T r sigma (kind_name k) = Return 0)
  /\ black_scholes S0 K 0 r sigma (kind_name k) = Return 0
  /\ black_scholes S0 K T r 0 (kind_name k) = Return 0.
Proof.
  split; [|split].
  - apply black_scholes_guard.
  - apply black_scholes_guard. left; lra.
  - apply black_scholes_guard. right; lra.
Qed.

Lemma C2_degenerate_zero_witness :
  (-1 <= 0 \/ 0.2 <= 0) /\ black_scholes 100 0 (-1) 0.05 0.2 "put" = Return 0.
Proof.
  split; [left; lra|].
  apply (proj1 (C2_degenerate_zero 100 0 (-1) 0.05 0.2 Put)). left; lra.
Defined.

(** C3, as the code has it, for Python floats.  Under the degenerate guard
    (maturity <= 0 or volatility <= 0) the result is 0 for every option type
    and nothing is raised.  Past the guard, with a strike different from zero
    and a volatility whose square does not overflow (below about 1.34e154):
    an option type other than 'call' and 'put' raises a ValueError whose
    message is the fixed text "option_type must be 'call' or 'put'", which
    does not contain the value received, and 'call' and 'put' return a price,
    nothing is raised.  Past the guard, when the square of the volatility
    overflows, [sigma ** 2] raises OverflowError for every option type. *)
Theorem C3_invalid_kind S0 K T r sigma option_type :
  (T <= 0 \/ sigma <= 0 ->
   black_scholes_exn S0 K T r sigma option_type = Return 0)
  /\ (0 < T -> 0 < sigma -> K <> 0 -> sigma ^ 2 < pow_overflow_bound ->
      (option_type <> "call" -> option_type <> "put" ->
       black_scholes_exn S0 K T r sigma option_type =
       Raise (ValueError "option_type must be 'call' or 'put'"))
      /\ (forall k, exists v,
            black_scholes_exn S0 K T r sigma (kind_name k) = Return v))
  /\ (0 < T -> 0 < sigma -> K <> 0 -> pow_overflow_bound <= sigma ^ 2 ->
      black_scholes_exn S0 K T r sigma option_type = Raise OverflowError).
Proof.
  split; [|split].
  - apply black_scholes_exn_guard.
  - intros HT Hs HK Ho. split.
    + intros Hc Hp. rewrite black_scholes_exn_no_overflow by exact Ho.
      rewrite black_scholes_past_guard by assumption. cbv zeta.
      apply String.eqb_neq in Hc, Hp. rewrite Hc, Hp. reflexivity.
    + intros k. rewrite black_scholes_exn_no_overflow by exact Ho.
      apply black_scholes_returns, HK.
  - apply black_scholes_exn_overflow.
Qed.

Lemma C3_invalid_kind_witness :
  (0 < 1 /\ 0 < 0.2 /\ 100 <> 0 /\ 0.2 ^ 2 < pow_overflow_bound) /\
  black_scholes_exn 100 100 1 0.05 0.2 "invalid" =
  Raise (ValueError "option_type must be 'call' or 'put'").
Proof.
  assert (HK : 100 <> 0) by lra.
  assert (Ho : 0.2 ^ 2 < pow_overflow_bound)
    by (pose proof pow_overflow_bound_large; lra).
  split; [repeat split; try lra; assumption|].
  apply (proj1 (proj1 (proj2 (C3_invalid_kind 100 100 1 0.05 0.2 "invalid"))
                  ltac:(lra) ltac:(lra) HK Ho));
    discriminate.
Defined.

(** C3 as stated fails: with maturity 0 an invalid option type raises
    nothing, 0 is returned; and where the error is raised (the
    specification's own example) its message does not contain the value
    "invalid". *)
Lemma C3_counterexample :
  black_scholes 100 100 0 0.05 0.2 "invalid" = Return 0
  /\ ~ (exists e, black_scholes 100 100 0 0.05 0.2 "invalid" = Raise e)
  /\ black_scholes 100 100 1 0.05 0.2 "invalid" =
     Raise (ValueError "option_type must be 'call' or 'put'")
  /\ index 0 "invalid" "option_type must be 'call' or 'put'" = None
  /\ black_scholes_exn 100 100 0 0.05 0.2 "invalid" = Return 0
  /\ ~ (exists e, black_scholes_exn 100 100 0 0.05 0.2 "invalid" = Raise e).
Proof.
  assert (H0 : black_scholes 100 100 0 0.05 0.2 "invalid" = Return 0)
    by (apply black_scholes_guard; left; lra).
  assert (H1 : black_scholes_exn 100 100 0 0.05 0.2 "invalid" = Return 0)
    by (apply black_scholes_exn_guard; left; lra).
  split; [exact H0|]. split; [|split; [|split; [|split]]].
  - intros [e He]. rewrite H0 in He. discriminate.
  - rewrite black_scholes_past_guard by lra. reflexivity.
  - reflexivity.
  - exact H1.
  - intros [e He]. rewrite H1 in He. discriminate.
Qed.

(** C4: the grid computation of [main] (10 spot steps, 10 volatility steps)
    returns two arrays of 10 rows and 10 columns; the spot axis holds 10
    evenly spaced values from 0.8*spot to 1.2*spot, the volatility axis 10
    evenly spaced values from 0.5*volatility to 1.5*volatility, ends
    included; the cell of row i and column j is the price at spot axis value
    j and volatility axis value i, with the strike, maturity and rate of the
    base input (row = volatility, column = spot). *)
Theorem C4_grid S0 K T r sigma :
  0 < S0 -> 0 < K ->
  exists g,
    snd (main_grid S0 K T r sigma) = Return g
    /\ evenly_spaced (S_range g) (0.8 * S0) (1.2 * S0) 10
    /\ evenly_spaced (sigma_range g) (0.5 * sigma) (1.5 * sigma) 10
    /\ has_shape (call_prices g) 10 10
    /\ has_shape (put_prices g) 10 10
    /\ forall i j, (i < 10)%nat -> (j < 10)%nat ->
         black_scholes (nth j (S_range g) 0) K T r (nth i (sigma_range g) 0) "call"
         = Return (cell (call_prices g) i j)
         /\ black_scholes (nth j (S_range g) 0) K T r (nth i (sigma_range g) 0) "put"
            = Return (cell (put_prices g) i j).
Proof.
  intros HS HK. assert (HK0 : K <> 0) by lra.
  eexists. split; [apply (main_grid_returns S0 K T r sigma HK0)|].
  cbn [S_range sigma_range call_prices put_prices].
  split; [|split; [|split; [|split]]].
  - rewrite (Rmult_comm 0.8), (Rmult_comm 1.2). apply linspace_evenly_spaced. lia.
  - rewrite (Rmult_comm 0.5), (Rmult_comm 1.5). apply linspace_evenly_spaced. lia.
  - apply has_shape_mk_grid.
  - apply has_shape_mk_grid.
  - intros i j Hi Hj. rewrite !cell_mk_grid by assumption. split.
    + apply (black_scholes_price_or_zero _ K T r _ Call HK0).
    + apply (black_scholes_price_or_zero _ K T r _ Put HK0).
Qed.

Lemma C4_grid_witness :
  (0 < 100) /\
  exists g,
    snd (main_grid 100 100 1 0.05 0.2) = Return g
    /\ evenly_spaced (S_range g) (0.8 * 100) (1.2 * 100) 10
    /\ evenly_spaced (sigma_range g) (0.5 * 0.2) (1.5 * 0.2) 10
    /\ has_shape (call_prices g) 10 10
    /\ has_shape (put_prices g) 10 10
    /\ forall i j, (i < 10)%nat -> (j < 10)%nat ->
         black_scholes (nth j (S_range g) 0) 100 1 0.05 (nth i (sigma_range g) 0) "call"
         = Return (cell (call_prices g) i j)
         /\ black_scholes (nth j (S_range g) 0) 100 1 0.05 (nth i (sigma_range g) 0) "put"
            = Return (cell (put_prices g) i j).
Proof.
  split; [lra|]. apply (C4_grid 100 100 1 0.05 0.2); lra.
Defined.



(** C6, as the code has it: an input with maturity exactly 0 (spot, strike
    and volatility positive) passes the validation of [main] and reaches the
    engine, where the degenerate guard makes every call return 0 and nothing
    is raised; an input with volatility exactly 0 is rejected by the
    validation, which tests sigma <= 0, and never reaches the engine from
    [main]; called directly with volatility 0 the engine returns 0. *)
Theorem C6_degenerate_inputs S0 K T r sigma :
  (0 < S0 -> 0 < K -> 0 < sigma -> T = 0 ->
   snd (main S0 K T r sigma) = Return tt
   /\ engine_invoked (fst (main S0 K T r sigma)) = true
   /\ Forall returns_zero (fst (main S0 K T r sigma)))
  /\ (sigma = 0 ->
      main S0 K T r sigma =
      (main_preamble ++ [st_error validation_message], Return tt)
      /\ engine_invoked (fst (main S0 K T r sigma)) = false)
  /\ (T = 0 \/ sigma = 0 ->
      forall option_type, black_scholes S0 K T r sigma option_type = Return 0).
Proof.
  split; [|split].
  - intros HS HK Hs ->.
    assert (Hacc : ~ rejected S0 K 0 r sigma) by (unfold rejected; lra).
    split; [apply main_accepted_returns, Hacc|]. split.
    + destruct (main_accepted_trace S0 K 0 r sigma Hacc) as [rest ->].
      reflexivity.
    + apply main_accepted_trace_zero, Hacc.
  - intros ->.
    assert (Hrej : rejected S0 K T r 0) by (unfold rejected; lra).
    rewrite (main_rejected _ _ _ _ _ Hrej). split; reflexivity.
  - intros H option_type. apply black_scholes_guard. lra.
Qed.

Lemma C6_degenerate_inputs_witness :
  (0 < 100 /\ 0 < 0.2 /\ 0 = 0) /\
  snd (main 100 100 0 0.05 0.2) = Return tt
  /\ engine_invoked (fst (main 100 100 0 0.05 0.2)) = true
  /\ Forall returns_zero (fst (main 100 100 0 0.05 0.2)).
Proof.
  split; [lra|].
  apply (proj1 (C6_degenerate_inputs 100 100 0 0.05 0.2)); lra.
Defined.

(** C6 as stated fails for volatility exactly 0: the validation rejects
    it, the user sees the error message and the engine is not invoked; no
    input with volatility 0 reaches the engine from [main]. *)
Lemma C6_counterexample :
  main 100 100 1 0.05 0 =
  (main_preamble ++ [st_error validation_message], Return tt)
  /\ engine_invoked (fst (main 100 100 1 0.05 0)) = false
  /\ ~ (exists S0 K T r, engine_invoked (fst (main S0 K T r 0)) = true).
Proof.
  assert (Hrej : forall S0 K T r, rejected S0 K T r 0)
    by (intros; unfold rejected; lra).
  split; [|split].
  - apply main_rejected, Hrej.
  - rewrite (main_rejected _ _ _ _ _ (Hrej 100 100 1 0.05)). reflexivity.
  - intros (S0 & K & T & r & H).
    rewrite (main_rejected _ _ _ _ _ (Hrej S0 K T r)) in H. discriminate.
Qed.

(** C7: when S <= 0, K <= 0, T < 0 or sigma <= 0, [main] shows the error
    message and stops: nothing but the page header and the message is shown,
    no price is written, no grid is drawn and the engine is not invoked.
    For every other input state the engine is invoked, first with the inputs
    themselves and the option type 'call'. *)
Theorem C7_validation S0 K T r sigma :
  (rejected S0 K T r sigma ->
   main S0 K T r sigma =
   (main_preamble ++ [st_error validation_message], Return tt)
   /\ engine_invoked (fst (main S0 K T r sigma)) = false)
  /\ (~ rejected S0 K T r sigma ->
      engine_invoked (fst (main S0 K T r sigma)) = true
      /\ In (engine_call S0 K T r sigma "call"
               (black_scholes S0 K T r sigma "call"))
            (fst (main S0 K T r sigma))
      /\ ~ In (st_error validation_message) (fst (main S0 K T r sigma))).
Proof.
  split.
  - intros Hrej. rewrite (main_rejected _ _ _ _ _ Hrej). split; reflexivity.
  - intros Hacc. split; [|split].
    + destruct (main_accepted_trace S0 K T r sigma Hacc) as [rest ->]. reflexivity.
    + destruct (main_accepted_trace S0 K T r sigma Hacc) as [rest ->].
      apply in_or_app. right. left. reflexivity.
    + apply main_accepted_no_error, Hacc.
Qed.

Lemma C7_validation_witness :
  rejected 100 100 (-1) 0.05 0.2 /\
  main 100 100 (-1) 0.05 0.2 =
  (main_preamble ++ [st_error validation_message], Return tt)
  /\ engine_invoked (fst (main 100 100 (-1) 0.05 0.2)) = false.
Proof.
  assert (H : rejected 100 100 (-1) 0.05 0.2) by (unfold rejected; lra).
  split; [exact H|].
  apply (proj1 (C7_validation 100 100 (-1) 0.05 0.2) H).
Defined.

(** C10: the degenerate guard is checked before the option type. With
    maturity <= 0 or volatility <= 0, [black_scholes] returns 0 for every
    option-type string, also one that is neither 'call' nor 'put'; so a
    ValueError can only be raised with maturity > 0 and volatility > 0. *)
Theorem C10_guard_before_kind S0 K T r sigma option_type :
  (T <= 0 \/ sigma <= 0 -> black_scholes S0 K T r sigma option_type = Return 0)
  /\ (forall msg,
        black_scholes S0 K T r sigma option_type = Raise (ValueError msg) ->
        0 < T /\ 0 < sigma).
Proof.
  split.
  - apply black_scholes_guard.
  - intros msg. apply black_scholes_ValueError.
Qed.

Lemma C10_guard_before_kind_witness :
  (1 <= 0 \/ 0 <= 0) /\ black_scholes 100 100 1 0.05 0 "invalid" = Return 0.
Proof.
  split; [right; lra|].
  apply (proj1 (C10_guard_before_kind 100 100 1 0.05 0 "invalid")). right; lra.
Defined.

(* ================================================================= *)
(** ** Further analysis: sensitivity to the total volatility *)




(* ================================================================= *)
(** ** The prices in units of the spot *)








(* ================================================================= *)
(** ** The returned price as a function *)







(* ================================================================= *)
(** ** The trace of the two nested loops *)

Lemma for_range_cons_fst {A} i rest (body : nat -> A -> ui A) st st' :
  snd (body i st) = Return st' ->
  fst (for_range (i :: rest) body st) =
  fst (body i st) ++ fst (for_range rest body st').
Proof. intros H. cbn [for_range]. rewrite ui_bind_fst, H. reflexivity. Qed.

Lemma for_range_cons_snd {A} i rest (body : nat -> A -> ui A) st st' :
  snd (body i st) = Return st' ->
  snd (for_range (i :: rest) body st) = snd (for_range rest body st').
Proof. intros H. cbn [for_range]. rewrite ui_bind_snd, H. reflexivity. Qed.

Section LoopTrace.
Variables (x y : list R) (K T r : R).
Variables (vc vp : nat -> nat -> R).

Let rows := List.length y.
Let cols := List.length x.
Let S_grid := mk_grid rows cols (fun _ j => nth j x 0).
Let sigma_grid := mk_grid rows cols (fun i _ => nth i y 0).

Hypothesis call_returns : forall i j, (i < rows)%nat -> (j < cols)%nat ->
  black_scholes (nth j x 0) K T r (nth i y 0) "call" = Return (vc i j).
Hypothesis put_returns : forall i j, (i < rows)%nat -> (j < cols)%nat ->
  black_scholes (nth j x 0) K T r (nth i y 0) "put" = Return (vp i j).

Lemma fill_cell_trace i j :
  (i < rows)%nat -> (j < cols)%nat ->
  fst (fill_cell S_grid sigma_grid K T r i j
         (mk_grid rows cols (partial_fill vc i j),
          mk_grid rows cols (partial_fill vp i j))) =
  cell_events x y K T r i j.
Proof.
  intros Hi Hj. unfold fill_cell, S_grid, sigma_grid, cell_events.
  rewrite !getitem_mk_grid by assumption.
  repeat (rewrite ui_bind_fst; cbn [fst snd lift call_black_scholes]).
  rewrite (call_returns i j Hi Hj).
  rewrite setitem_mk_grid by assumption.
  repeat (rewrite ui_bind_fst; cbn [fst snd lift call_black_scholes]).
  rewrite (put_returns i j Hi Hj).
  rewrite setitem_mk_grid by assumption.
  reflexivity.
Qed.

Lemma inner_loop_trace i n j :
  (i < rows)%nat -> (j + n = cols)%nat ->
  fst (for_range (seq j n)
         (fun j st => fill_cell S_grid sigma_grid K T r i j st)
         (mk_grid rows cols (partial_fill vc i j),
          mk_grid rows cols (partial_fill vp i j))) =
  flat_map (fun j => cell_events x y K T r i j) (seq j n).
Proof.
  intros Hi. revert j. induction n as [|n IH]; intros j Hj; cbn [seq flat_map].
  - reflexivity.
  - rewrite (for_range_cons_fst _ _ _ _ _
               (fill_cell_returns x y K T r vc vp call_returns put_returns i j Hi
                  ltac:(unfold cols in Hj; lia))).
    rewrite fill_cell_trace by (unfold cols in *; lia).
    rewrite IH by lia. reflexivity.
Qed.

Lemma outer_loop_trace n i :
  (i + n = rows)%nat ->
  fst (for_range (seq i n)
         (fun i st =>
            for_range (range cols)
              (fun j st' => fill_cell S_grid sigma_grid K T r i j st') st)
         (mk_grid rows cols (partial_fill vc i 0),
          mk_grid rows cols (partial_fill vp i 0))) =
  flat_map
    (fun i => flat_map (fun j => cell_events x y K T r i j) (seq 0 cols))
    (seq i n).
Proof.
  revert i. induction n as [|n IH]; intros i Hi; cbn [seq flat_map].
  - reflexivity.
  - assert (Hrow : (i < rows)%nat) by lia.
    pose proof (inner_loop_returns x y K T r vc vp call_returns put_returns
                  i cols 0 Hrow eq_refl) as Hsnd.
    rewrite !partial_fill_next_row in Hsnd.
    rewrite (for_range_cons_fst _ _ _ _ _ Hsnd).
    unfold range at 1. rewrite inner_loop_trace by (try exact Hrow; reflexivity).
    rewrite IH by lia. reflexivity.
Qed.

Lemma fill_grids_trace :
  (0 < rows)%nat ->
  fst (fill_grids S_grid sigma_grid K T r
         (zeros_like S_grid, zeros_like S_grid)) =
  grid_events x y K T r.
Proof.
  intros Hrows. unfold fill_grids, S_grid, grid_events.
  rewrite shape_mk_grid by exact Hrows. cbn [fst snd].
  rewrite zeros_like_mk_grid.
  rewrite (partial_fill_none vc) at 1. rewrite (partial_fill_none vp).
  unfold range at 1. apply outer_loop_trace. lia.
Qed.

End LoopTrace.

(* ================================================================= *)
(** ** The complete run of [main] *)

Lemma main_grid_trace S0 K T r sigma :
  K <> 0 ->
  fst (main_grid S0 K T r sigma) =
  grid_events (linspace (S0 * 0.8) (S0 * 1.2) 10)
    (linspace (sigma * 0.5) (sigma * 1.5) 10) K T r.
Proof.
  intros HK. unfold main_grid.
  set (xs := linspace (S0 * 0.8) (S0 * 1.2) 10).
  set (ys := linspace (sigma * 0.5) (sigma * 1.5) 10).
  rewrite meshgrid_mk_grid.
  rewrite ui_bind_fst.
  rewrite (fill_grids_trace xs ys K T r
             (fun i j => price_or_zero (nth j xs 0) K T r (nth i ys 0) "call")
             (fun i j => price_or_zero (nth j xs 0) K T r (nth i ys 0) "put")).
  - destruct (snd _); cbn [fst ui_ret]; apply app_nil_r.
  - intros i j _ _. apply (black_scholes_price_or_zero _ K T r _ Call HK).
  - intros i j _ _. apply (black_scholes_price_or_zero _ K T r _ Put HK).
  - unfold ys. rewrite linspace_length. lia.
Qed.

Lemma grid_events_all_calls x y K T r :
  Forall (fun e => is_engine_call e = true) (grid_events x y K T r).
Proof.
  unfold grid_events. apply Forall_flat_map, Forall_forall. intros i _.
  apply Forall_flat_map, Forall_forall. intros j _.
  unfold cell_events. repeat constructor.
Qed.

Lemma engine_calls_all_calls t :
  Forall (fun e => is_engine_call e = true) t -> engine_calls t = t.
Proof.
  induction 1 as [|e t He _ IH]; [reflexivity|].
  unfold engine_calls in *. cbn [filter]. rewrite He, IH. reflexivity.
Qed.

Lemma grid_events_length x y K T r :
  List.length (grid_events x y K T r) = (List.length y * (List.length x * 2))%nat.
Proof.
  unfold grid_events.
  rewrite flat_map_constant_length with (c := (List.length x * 2)%nat);
    [rewrite length_seq; reflexivity|].
  intros i _.
  rewrite flat_map_constant_length with (c := 2%nat);
    [rewrite length_seq; reflexivity|].
  intros j _. reflexivity.
Qed.

Lemma main_accepted_full_trace S0 K T r sigma g :
  ~ rejected S0 K T r sigma ->
  snd (main_grid S0 K T r sigma) = Return g ->
  fst (main S0 K T r sigma) =
  main_preamble
  ++ [ engine_call S0 K T r sigma "call"
         (Return (price_or_zero S0 K T r sigma "call"));
       engine_call S0 K T r sigma "put"
         (Return (price_or_zero S0 K T r sigma "put"));
       st_write "### Calculated Option Prices:";
       st_write_price "**Estimated Call Price:** $"
         (price_or_zero S0 K T r sigma "call");
       st_write_price "**Estimated Put Price:** $"
         (price_or_zero S0 K T r sigma "put") ]
  ++ fst (main_grid S0 K T r sigma)
  ++ [ st_write "### Call Option Prices Heatmap";
       st_pyplot (mk_heatmap (call_prices g) (S_range g) (sigma_range g)
                    "Call Prices Heatmap");
       st_write "### Put Option Prices Heatmap";
       st_pyplot (mk_heatmap (put_prices g) (S_range g) (sigma_range g)
                    "Put Prices Heatmap");
       st_write "---";
       st_markdown_footer ].
Proof.
  intros Hacc Hg. unfold main. rewrite (validation_false _ _ _ r _ Hacc).
  assert (HK : K <> 0) by (unfold rejected in Hacc; lra).
  pose proof (black_scholes_price_or_zero S0 K T r sigma Call HK) as Hc.
  pose proof (black_scholes_price_or_zero S0 K T r sigma Put HK) as Hp.
  cbn [kind_name] in Hc, Hp.
  repeat (rewrite ui_bind_fst; cbn [fst snd emit call_black_scholes]).
  rewrite Hc.
  repeat (rewrite ui_bind_fst; cbn [fst snd emit call_black_scholes]).
  rewrite Hp.
  repeat (rewrite ui_bind_fst; cbn [fst snd emit call_black_scholes]).
  rewrite Hg.
  repeat (rewrite ui_bind_fst; cbn [fst snd emit call_black_scholes]).
  cbn [app main_preamble]. reflexivity.
Qed.




Lemma rejected_dec S0 K T r sigma :
  {rejected S0 K T r sigma} + {~ rejected S0 K T r sigma}.
Proof.
  unfold rejected.
  destruct (Rle_dec S0 0); [left; tauto|].
  destruct (Rle_dec K 0); [left; tauto|].
  destruct (Rlt_dec T 0); [left; tauto|].
  destruct (Rle_dec sigma 0); [left; tauto|].
  right. tauto.
Qed.

(* ================================================================= *)
(** ** Further properties of the pricing engine *)

(** X1: past the degenerate guard (maturity > 0, volatility > 0) a strike of
    exactly 0 makes [black_scholes] raise ZeroDivisionError from [S / K], for
    every option type: the division comes before the option type is looked
    at, so an invalid option type is not reported there. *)
Theorem X1_zero_strike_raises S0 T r sigma option_type :
  0 < T -> 0 < sigma ->
  black_scholes S0 0 T r sigma option_type = Raise ZeroDivisionError.
Proof.
  intros HT Hs. unfold black_scholes.
  rewrite (Rleb_false _ _ HT), (Rleb_false _ _ Hs). cbn [orb].
  unfold truediv. destruct (Req_dec_T 0 0) as [_|H]; [reflexivity | lra].
Qed.

Lemma X1_zero_strike_raises_witness :
  (0 < 1 /\ 0 < 0.2) /\
  black_scholes 100 0 1 0.05 0.2 "invalid" = Raise ZeroDivisionError.
Proof.
  split; [lra|]. apply (X1_zero_strike_raises 100 1 0.05 0.2 "invalid"); lra.
Defined.

(* ================================================================= *)
(** ** Further properties of the presentation layer *)

(** X10: within the bounds that the five number inputs declare (S, K >= 0.01,
    T >= 0, r and sigma in [0, 1]), the validation of line 35 fires exactly
    when sigma = 0: the error box is shown if and only if sigma = 0, the
    tests on S, K and T never fire. *)
Theorem X10_widget_range_validation S0 K T r sigma :
  widget_range S0 K T r sigma ->
  (rejected S0 K T r sigma <-> sigma = 0)
  /\ (In (st_error validation_message) (fst (main S0 K T r sigma))
      <-> sigma = 0).
Proof.
  intros (HS & HK & HT & Hr & Hs).
  assert (Hiff : rejected S0 K T r sigma <-> sigma = 0)
    by (unfold rejected; split; intros; lra).
  split; [exact Hiff|]. split.
  - intros Hin. destruct (rejected_dec S0 K T r sigma) as [Hrej | Hacc].
    + apply Hiff, Hrej.
    + exfalso. exact (main_accepted_no_error S0 K T r sigma Hacc Hin).
  - intros H0. apply Hiff in H0. rewrite (main_rejected _ _ _ _ _ H0).
    cbn [fst]. apply in_or_app. right. left. reflexivity.
Qed.

Lemma X10_widget_range_validation_witness :
  widget_range 100 100 1 0.05 0 /\
  In (st_error validation_message) (fst (main 100 100 1 0.05 0)).
Proof.
  assert (H : widget_range 100 100 1 0.05 0) by (unfold widget_range; lra).
  split; [exact H|].
  apply (proj2 (X10_widget_range_validation 100 100 1 0.05 0 H)). reflexivity.
Defined.

(** X12: the engine calls of an accepted run.  The run calls
    [black_scholes] exactly 202 times: on the inputs with 'call' then 'put',
    then for each row (volatility axis, outer loop) and each column (spot
    axis, inner loop) with 'call' then 'put', with the strike, maturity and
    rate of the inputs. *)
Theorem X12_accepted_engine_calls S0 K T r sigma :
  ~ rejected S0 K T r sigma ->
  engine_calls (fst (main S0 K T r sigma)) =
  engine_call S0 K T r sigma "call" (black_scholes S0 K T r sigma "call")
  :: engine_call S0 K T r sigma "put" (black_scholes S0 K T r sigma "put")
  :: grid_events (linspace (S0 * 0.8) (S0 * 1.2) 10)
       (linspace (sigma * 0.5) (sigma * 1.5) 10) K T r
  /\ List.length (engine_calls (fst (main S0 K T r sigma))) = 202%nat.
Proof.
  intros Hacc.
  assert (HK : K <> 0) by (unfold rejected in Hacc; lra).
  pose proof (main_grid_returns S0 K T r sigma HK) as Hg. cbv zeta in Hg.
  assert (Heq : engine_calls (fst (main S0 K T r sigma)) =
    engine_call S0 K T r sigma "call" (black_scholes S0 K T r sigma "call")
    :: engine_call S0 K T r sigma "put" (black_scholes S0 K T r sigma "put")
    :: grid_events (linspace (S0 * 0.8) (S0 * 1.2) 10)
         (linspace (sigma * 0.5) (sigma * 1.5) 10) K T r).
  { rewrite (main_accepted_full_trace S0 K T r sigma _ Hacc Hg).
    pose proof (black_scholes_price_or_zero S0 K T r sigma Call HK) as Hc.
    pose proof (black_scholes_price_or_zero S0 K T r sigma Put HK) as Hp.
    cbn [kind_name] in Hc, Hp. rewrite Hc, Hp.
    unfold engine_calls. rewrite !filter_app.
    fold (engine_calls (fst (main_grid S0 K T r sigma))).
    rewrite (main_grid_trace S0 K T r sigma HK).
    rewrite (engine_calls_all_calls _ (grid_events_all_calls _ _ K T r)).
    cbn [filter is_engine_call main_preamble app]. rewrite app_nil_r.
    reflexivity. }
  split; [exact Heq|].
  rewrite Heq. cbn [List.length]. rewrite grid_events_length, !linspace_length.
  reflexivity.
Qed.

Lemma X12_accepted_engine_calls_witness :
  ~ rejected 100 100 1 0.05 0.2 /\
  List.length (engine_calls (fst (main 100 100 1 0.05 0.2))) = 202%nat.
Proof.
  assert (H : ~ rejected 100 100 1 0.05 0.2) by (unfold rejected; lra).
  split; [exact H|].
  apply (proj2 (X12_accepted_engine_calls 100 100 1 0.05 0.2 H)).
Defined.


